(** * Serving a Stable Diffusion model: ingress, replica, fan-out client

    A shallow embedding of the serving notebook
    (doc/source/templates/.../serving_stable_diffusion): the
    [StableDiffusionV2] deployment, the [APIIngress] endpoint bound to
    it, and the client script that fans requests out with Ray tasks.

    Python exceptions are values of an error type, effects are threaded
    through an explicit state, and everything the notebook imports
    (the diffusion pipeline, the PNG encoder, the HTTP transport, the
    clock) is a section variable. *)

From Stdlib Require Import Ascii.
From stdpp Require Import base list strings gmap pretty.

Open Scope string_scope.
Open Scope list_scope.
Open Scope Z_scope.

(** ** Python-level results *)

Inductive exn : Type :=
| AssertionError (msg : string)
| IndexError (msg : string)
| PyError (cls msg : string).

Inductive outcome (A : Type) : Type :=
| Ok (a : A)
| Raised (e : exn).
Arguments Ok {A} a.
Arguments Raised {A} e.

Definition is_ok {A} (r : outcome A) : bool :=
  match r with Ok _ => true | Raised _ => false end.

(** The message an exception carries; a failure is descriptive when
    this is not the empty string. *)
Definition exn_msg (e : exn) : string :=
  match e with
  | AssertionError m => m
  | IndexError m => m
  | PyError _ m => m
  end.

(** A computation over a state [St] that returns or raises. *)
Definition M (St A : Type) : Type := St -> outcome A * St.

Definition ret {St A} (a : A) : M St A := fun s => (Ok a, s).
Definition raise {St A} (e : exn) : M St A := fun s => (Raised e, s).
Definition bind {St A B} (c : M St A) (k : A -> M St B) : M St B :=
  fun s => match c s with
           | (Ok a, s') => k a s'
           | (Raised e, s') => (Raised e, s')
           end.

Notation "'do' x <- c ; k" := (bind c (fun x => k))
  (at level 10, x name, c at level 100, k at level 200).
Notation "'do' ' p <- c ; k" := (bind c (fun x => match x with p => k end))
  (at level 10, p pattern, c at level 100, k at level 200).
Notation "c ;; k" := (bind c (fun _ => k))
  (at level 100, k at level 200, right associativity).

(** [assert cond, msg] *)
Definition py_assert {St} (cond : bool) (msg : string) : M St unit :=
  if cond then ret tt else raise (AssertionError msg).

(** Truthiness of [len(s)]. *)
Definition len_truthy (s : string) : bool := negb (String.length s =? 0)%nat.

Definition bytes : Type := list Byte.byte.

(** ** The server side *)

(** A PIL image as far as the notebook looks at it. *)
Record image : Type := Image {
  im_width : Z;
  im_height : Z;
  im_pixels : bytes
}.

(** What the deployment graph does, in order. *)
Inductive srv_event : Type :=
| EvRemote (prompt : string) (img_size : Z)
    (* self.handle.generate.remote(prompt, img_size=img_size) *)
| EvPipe (prompt : string) (height width : Z).
    (* self.pipe(prompt, height=..., width=...) *)

Definition srv_state : Type := list srv_event.

Definition emit (ev : srv_event) : M srv_state unit :=
  fun s => (Ok tt, s ++ [ev]).

(** Cell "90eca147" and its smoke-test override. *)
Definition NUM_REPLICAS (SMOKE_TEST : bool) : nat := if SMOKE_TEST then 1%nat else 4%nat.
Definition IMAGE_SIZE (SMOKE_TEST : bool) : Z := if SMOKE_TEST then 256 else 776.

Module StableDiffusionV2.
Section Replica.
(** [self.pipe]: the loaded pipeline. Its call either raises or
    returns an object whose [.images] is a list. *)
Variable pipe : string -> Z -> Z -> outcome (list image).

Definition call_pipe (prompt : string) (height width : Z) : M srv_state (list image) :=
  fun s => (pipe prompt height width, s ++ [EvPipe prompt height width]).

(** [.images[0]] *)
Definition first_image (images : list image) : M srv_state image :=
  match images with
  | im :: _ => ret im
  | [] => raise (IndexError "list index out of range")
  end.

(** [def generate(self, prompt: str, img_size: int = 776)] *)
Definition generate (prompt : string) (img_size : option Z) : M srv_state image :=
  let img_size := default 776 img_size in
  py_assert (len_truthy prompt) "prompt parameter cannot be empty" ;;
  do images <- call_pipe prompt img_size img_size;
  do image <- first_image images;
  ret image.
End Replica.
End StableDiffusionV2.

(** The HTTP response object the endpoint builds. *)
Record Response : Type := MkResponse {
  content : bytes;
  media_type : string;
  status_code : Z
}.

Module APIIngress.
Section Ingress.
(** [self.handle.generate]: the method behind the deployment handle,
    called as [generate.remote(prompt, img_size=img_size)]. *)
Variable handle_generate : string -> option Z -> M srv_state image.
(** [image.save(file_stream, "PNG")] followed by [getvalue()]. *)
Variable png_encode : image -> bytes.

Definition remote_generate (prompt : string) (img_size : Z) : M srv_state image :=
  emit (EvRemote prompt img_size) ;;
  handle_generate prompt (Some img_size).

(** [async def generate(self, prompt: str, img_size: int = 776)];
    [Response(...)] is built with its default status 200. *)
Definition generate (prompt : string) (img_size : option Z) : M srv_state Response :=
  let img_size := default 776 img_size in
  py_assert (len_truthy prompt) "prompt parameter cannot be empty" ;;
  do image <- remote_generate prompt img_size;
  ret (MkResponse (png_encode image) "image/png" 200).

(** The application is [FastAPI()] with no exception handler
    installed: a returned response goes out with its own status, an
    exception that escapes the route goes out as 500. *)
Definition http_status (r : outcome Response) : Z :=
  match r with
  | Ok resp => status_code resp
  | Raised _ => 500
  end.

Definition client_fault (r : outcome Response) : bool :=
  (400 <=? http_status r) && (http_status r <? 500).
End Ingress.
End APIIngress.

(** [entrypoint = APIIngress.bind(StableDiffusionV2.bind())] *)
Definition entrypoint (pipe : string -> Z -> Z -> outcome (list image))
    (png_encode : image -> bytes) : string -> option Z -> M srv_state Response :=
  APIIngress.generate (StableDiffusionV2.generate pipe) png_encode.

(** ** The client side *)

(** Values of the [params] dictionary of a request. *)
Inductive pyval : Type :=
| PStr (s : string)
| PInt (z : Z).

Record http_request : Type := HttpRequest {
  rq_url : string;
  rq_params : list (string * pyval);
  rq_timeout : option (Z * Z)         (* seconds, as a fraction *)
}.

Record http_response : Type := HttpResponse {
  resp_status : Z;
  resp_content : bytes
}.

(** What the driver script does, in order. *)
Inductive cl_event : Type :=
| EvSubmit (ref : nat) (prompt : string)    (* generate_image.remote(prompt) *)
| EvRayGet (refs : list nat)                (* ray.get([...]) *)
| EvPrint (msg : string)
| EvInput (msg : string)
| EvMakedirs (dirname : string)
| EvWrite (filename : string) (data : bytes)
| EvReport (n_images : nat) (elapsed : Z) (dirname : string)
| EvShow (filenames : list string).

(** What Ray's object store holds for an [ObjectRef]: a task that
    was handed in and has not run yet, or the result, returned or
    raised, of a task that has run. *)
Inductive task_state : Type :=
| Scheduled (prompt : string)
| Finished (r : outcome bytes).

(** The driver's world: its own trace and wall clock (in ticks), the
    requests handed to the HTTP transport in the order in which they
    reached it, Ray's object store with the next free [ObjectRef],
    and the file system below the working directory. *)
Record world : Type := World {
  trace : list cl_event;
  clock : Z;
  sent : list http_request;
  objects : gmap nat task_state;
  next_ref : nat;
  uuids_drawn : nat;
  dirs : gset string;
  files : gmap string bytes
}.

Definition lower_ascii (c : ascii) : ascii :=
  let n := nat_of_ascii c in
  if ((65 <=? n) && (n <=? 90))%nat then ascii_of_nat (n + 32) else c.

(** [str.lower()], on the ASCII letters. *)
Fixpoint lower (s : string) : string :=
  match s with
  | EmptyString => EmptyString
  | String c s' => String (lower_ascii c) (lower s')
  end.

Definition ends_with_slash (s : string) : bool :=
  match String.get (String.length s - 1) s with
  | Some c => bool_decide (c = "/"%char)
  | None => false
  end.

(** [os.path.join(a, b)] on POSIX paths. *)
Definition os_path_join (a b : string) : string :=
  if String.prefix "/" b then b
  else if bool_decide (a = EmptyString) || ends_with_slash a then a +:+ b
  else a +:+ "/" +:+ b.

(** [sum(xs) / len(xs)] as a fraction. *)
Definition mean (xs : list Z) : Z * Z := (foldr Z.add 0 xs, Z.of_nat (length xs)).

Module Client.
Section Driver.
Variable SMOKE_TEST : bool.
(** [requests.get]: what the transport answers to the [n]-th request
    handed to it. *)
Variable transport : nat -> http_request -> outcome http_response.
(** Ray's scheduler: of the tasks that wait to run, given by their
    references, the place in the list of the one that runs next
    (taken modulo the length of the list). *)
Variable schedule : list nat -> nat.
(** [uuid.uuid4().hex], by draw. *)
Variable uuid4_hex : nat -> string.
(** How long each step of the driver takes on its wall clock. *)
Variable cost : cl_event -> Z.
(** The matplotlib calls of [show_images]. *)
Variable plt_display : list string -> outcome unit.
(** Cells "6aac28e1" and "dd20a52d": the values the user is invited
    to replace. *)
Variable NUM_IMAGES_PER_PROMPT : Z.
Variable INTERACTIVE : bool.
Variable PROMPT : string.

Definition port : Z := 8000.
Definition endpoint : string := "http://localhost:" +:+ pretty port +:+ "/imagine".

Definition log (ev : cl_event) : M world unit :=
  fun w => (Ok tt, World (trace w ++ [ev]) (clock w + cost ev) (sent w)
                    (objects w) (next_ref w) (uuids_drawn w) (dirs w) (files w)).

(** [time.time()] *)
Definition time_time : M world Z := fun w => (Ok (clock w), w).

Definition requests_get (url : string) (params : list (string * pyval))
    (timeout : option (Z * Z)) : M world http_response :=
  fun w =>
    let rq := HttpRequest url params timeout in
    (transport (length (sent w)) rq,
     World (trace w) (clock w) (sent w ++ [rq])
           (objects w) (next_ref w) (uuids_drawn w) (dirs w) (files w)).

(** The body of the [generate_image] task. *)
Definition generate_image (prompt : string) : M world bytes :=
  let req := [("prompt", PStr prompt); ("img_size", PInt (IMAGE_SIZE SMOKE_TEST))] in
  do resp <- requests_get endpoint req None;
  ret (resp_content resp).

(** [generate_image.remote(prompt)]: the task is handed to Ray and an
    [ObjectRef] comes back at once; nothing of the task has run. *)
Definition generate_image_remote (prompt : string) : M world nat :=
  fun w =>
    let ref := next_ref w in
    let w2 := World (trace w) (clock w) (sent w)
                    (<[ref := Scheduled prompt]> (objects w)) (S ref)
                    (uuids_drawn w) (dirs w) (files w) in
    (Ok ref, (log (EvSubmit ref prompt) w2).2).

(** The list comprehension [[generate_image.remote(prompt) for _ in range(n)]]. *)
Fixpoint submit_all (prompt : string) (n : nat) : M world (list nat) :=
  match n with
  | O => ret []
  | S n' =>
      do ref <- generate_image_remote prompt;
      do refs <- submit_all prompt n';
      ret (ref :: refs)
  end.

(** A worker runs the task behind [ref]: the body of [generate_image]
    with the prompt the task was submitted with. Its request joins
    those that have reached the transport, and its result, returned
    or raised, takes the task's place in the store. The trace and
    the clock are the driver's and are not touched. *)
Definition run_task (ref : nat) (w : world) : world :=
  match objects w !! ref with
  | Some (Scheduled prompt) =>
      let '(r, w1) := generate_image prompt w in
      World (trace w1) (clock w1) (sent w1)
            (<[ref := Finished r]> (objects w1)) (next_ref w1)
            (uuids_drawn w1) (dirs w1) (files w1)
  | _ => w
  end.

(** The order in which the waiting tasks run: the tasks of a batch
    run side by side on Ray's workers, and which of them reaches the
    endpoint first is the scheduler's choice, made anew for every
    task. *)
Fixpoint run_order_go (n : nat) (waiting : list nat) : list nat :=
  match n with
  | O => []
  | S n' =>
      let k := (schedule waiting mod length waiting)%nat in
      match waiting !! k with
      | Some ref => ref :: run_order_go n' (delete k waiting)
      | None => []
      end
  end.

Definition run_order (waiting : list nat) : list nat :=
  run_order_go (length waiting) waiting.

Definition run_tasks (waiting : list nat) (w : world) : world :=
  foldl (fun w ref => run_task ref w) w (run_order waiting).

Definition is_scheduled (store : gmap nat task_state) (ref : nat) : bool :=
  match store !! ref with
  | Some (Scheduled _) => true
  | _ => false
  end.

(** Looking the results up in the order of the list; the first task
    that raised makes [ray.get] raise. *)
Fixpoint fetch (store : gmap nat task_state) (refs : list nat) : outcome (list bytes) :=
  match refs with
  | [] => Ok []
  | ref :: refs' =>
      match store !! ref with
      | Some (Finished (Ok v)) =>
          match fetch store refs' with
          | Ok vs => Ok (v :: vs)
          | Raised e => Raised e
          end
      | Some (Finished (Raised e)) => Raised e
      | _ => Raised (PyError "ObjectLostError" (pretty ref))
      end
  end.

(** [ray.get(refs)]: the driver waits until the tasks behind [refs]
    have run, in whatever order the scheduler lets them, and then
    takes their results in the order of [refs]. *)
Definition ray_get (refs : list nat) : M world (list bytes) :=
  log (EvRayGet refs) ;;
  fun w =>
    let w1 := run_tasks (filter (fun ref => is_scheduled (objects w) ref = true) refs) w in
    (fetch (objects w1) refs, w1).

(** [ray.get([generate_image.remote(prompt) for _ in range(count)])]:
    the fan-out of [main], with the number of images as an argument. *)
Definition generate_many (prompt : string) (count : nat) : M world (list bytes) :=
  do refs <- submit_all prompt count;
  ray_get refs.

(** The reachability check at the top of [main]: any exception of
    the request is replaced by a [RuntimeWarning]. *)
Definition probe : M world unit :=
  fun w =>
    match requests_get endpoint [] (Some (1, 10)) w with
    | (Ok _, w') => (Ok tt, w')
    | (Raised _, w') =>
        (Raised (PyError "RuntimeWarning"
                   "Did you setup the Ray Serve model replicas with `python server.py --num-replicas=...` in another terminal yet?"),
         w')
    end.

(** [uuid.uuid4().hex[:8]] *)
Definition uuid4_hex8 : M world string :=
  fun w => (Ok (String.substring 0 8 (uuid4_hex (uuids_drawn w))),
            World (trace w) (clock w) (sent w) (objects w) (next_ref w)
                  (S (uuids_drawn w)) (dirs w) (files w)).

(** [os.makedirs(dirname)]: without [exist_ok], an existing directory
    is an error. *)
Definition os_makedirs (dirname : string) : M world unit :=
  log (EvMakedirs dirname) ;;
  fun w =>
    if bool_decide (dirname ∈ dirs w)
    then (Raised (PyError "FileExistsError" dirname), w)
    else (Ok tt, World (trace w) (clock w) (sent w) (objects w) (next_ref w)
                       (uuids_drawn w) ({[dirname]} ∪ dirs w) (files w)).

(** [with open(filename, "wb") as f: f.write(image)], in the
    directory made just before. *)
Definition write_file (filename : string) (data : bytes) : M world unit :=
  log (EvWrite filename data) ;;
  fun w => (Ok tt, World (trace w) (clock w) (sent w) (objects w) (next_ref w)
                         (uuids_drawn w) (dirs w) (<[filename := data]> (files w))).

(** [for i, image in enumerate(images): ...], from index [i] on. *)
Fixpoint write_images (dirname : string) (i : nat) (images : list bytes)
    (filenames : list string) : M world (list string) :=
  match images with
  | [] => ret filenames
  | image :: images' =>
      let filename := os_path_join dirname (pretty i +:+ ".png") in
      write_file filename image ;;
      write_images dirname (S i) images' (filenames ++ [filename])
  end.

Definition show_images (filenames : list string) : M world unit :=
  log (EvShow filenames) ;;
  fun w => (plt_display filenames, w).

(** One pass through the body of [while True], from the first
    [print] to [show_images]; the result is [generation_times]
    after the pass. *)
Definition iteration (prompt : string) (generation_times : list Z) : M world (list Z) :=
  log (EvPrint "Generating image(s)...") ;;
  do start <- time_time;
  do images <- generate_many prompt (Z.to_nat NUM_IMAGES_PER_PROMPT);
  do dirname <- uuid4_hex8;
  os_makedirs dirname ;;
  do filenames <- write_images dirname 0 images [];
  do now <- time_time;
  let elapsed := now - start in
  let generation_times := generation_times ++ [elapsed] in
  log (EvReport (length images) elapsed dirname) ;;
  show_images filenames ;;
  ret generation_times.

(** The loop when [INTERACTIVE]: one line of standard input per
    pass; [input] raises at the end of the input. *)
Fixpoint interactive_loop (stdin : list string) (generation_times : list Z)
    : M world (list Z) :=
  match stdin with
  | [] =>
      log (EvInput "Enter a prompt (or 'q' to quit):  ") ;;
      raise (PyError "EOFError" "EOF when reading a line")
  | prompt :: stdin' =>
      log (EvInput "Enter a prompt (or 'q' to quit):  ") ;;
      if bool_decide (lower prompt = "q") then ret generation_times
      else
        do generation_times <- iteration prompt generation_times;
        interactive_loop stdin' generation_times
  end.

(** [def main() -> float]; the mean is returned as a fraction. *)
Definition main (stdin : list string) : M world (Z * Z) :=
  probe ;;
  do generation_times <-
    (if INTERACTIVE then interactive_loop stdin []
     else if bool_decide (lower PROMPT = "q") then ret []
     else iteration PROMPT []);
  ret (match generation_times with
       | [] => (-1, 1)
       | _ :: _ => mean generation_times
       end).

(** Names for what the statements below talk about: the request a
    [generate_image] task makes, what the task returns when it is
    the [n]-th request, the time a list of steps takes, and the
    steps of the [enumerate] loop. *)
Definition image_request (prompt : string) : http_request :=
  HttpRequest endpoint
    [("prompt", PStr prompt); ("img_size", PInt (IMAGE_SIZE SMOKE_TEST))] None.

Definition task_result (n : nat) (prompt : string) : outcome bytes :=
  match transport n (image_request prompt) with
  | Ok resp => Ok (resp_content resp)
  | Raised e => Raised e
  end.

Definition total_cost (evs : list cl_event) : Z :=
  foldr (fun ev acc => cost ev + acc) 0 evs.

Definition image_filename (dirname : string) (i : nat) : string :=
  os_path_join dirname (pretty i +:+ ".png").

Fixpoint write_events (dirname : string) (i : nat) (images : list bytes) : list cl_event :=
  match images with
  | [] => []
  | image :: images' =>
      EvWrite (image_filename dirname i) image :: write_events dirname (S i) images'
  end.

Definition submit_events (ref0 : nat) (prompt : string) (count : nat) : list cl_event :=
  map (fun i => EvSubmit (ref0 + i)%nat prompt) (seq 0 count).

Definition fan_out_events (ref0 : nat) (prompt : string) (count : nat) : list cl_event :=
  submit_events ref0 prompt count ++ [EvRayGet (seq ref0 count)].

(** The files once the [enumerate] loop has written [images] from
    index [i] on. *)
Fixpoint files_after (dirname : string) (i : nat) (images : list bytes)
    (fs : gmap string bytes) : gmap string bytes :=
  match images with
  | [] => fs
  | image :: images' =>
      files_after dirname (S i) images' (<[image_filename dirname i := image]> fs)
  end.

(** The time from the issuance of the requests of a pass to the
    return of [ray.get] with the last result. *)
Definition retrieval_interval (prompt : string) (w : world) : Z :=
  let w1 := (log (EvPrint "Generating image(s)...") w).2 in
  clock (generate_many prompt (Z.to_nat NUM_IMAGES_PER_PROMPT) w1).2 - clock w1.
End Driver.
End Client.

(** [main] with the values the notebook ships: as many images per
    prompt as there are replicas, not interactive, the given prompt. *)
Definition notebook_main (SMOKE_TEST : bool)
    (transport : nat -> http_request -> outcome http_response)
    (schedule : list nat -> nat)
    (uuid4_hex : nat -> string) (cost : cl_event -> Z)
    (plt_display : list string -> outcome unit) : M world (Z * Z) :=
  Client.main SMOKE_TEST transport schedule uuid4_hex cost plt_display
    (Z.of_nat (NUM_REPLICAS SMOKE_TEST)) false
    "twin peaks sf in basquiat painting style" [].

(** ** The replica pool *)

(** The notebook only declares the pool: [@serve.deployment(...,
    num_replicas=NUM_REPLICAS)]. The dispatcher behind that
    declaration is Ray Serve's and is not among the sources. *)
Module Pool.

(** Modelled from the spec: the WorkRequest of the data model, "{ id,
    payload, parameters: mapping of option name to value }"; Ray
    Serve's own request type is missing from the sources. *)
Record WorkRequest : Type := MkRequest {
  id : nat;
  payload : string;
  parameters : gmap string pyval
}.

(** Modelled from the spec: the status of a WorkResult, "Success" with
    its output bytes or "Failure" with its error descriptor; the type
    Ray Serve uses is missing from the sources. *)
Inductive status : Type :=
| Success (value : bytes)
| Failure (error : string).

(** Modelled from the spec: the WorkResult of the data model, a
    [request_id] with a status; missing from the sources. *)
Record WorkResult : Type := MkResult {
  request_id : nat;
  result_status : status
}.

(** Modelled from the spec: the Replica of the data model, "{ identity,
    loaded-resource handle, busy }". The handle is opaque to the
    dispatcher and left out; Ray Serve's replica actor wrapper is
    missing from the sources. *)
Record Replica : Type := MkReplica {
  identity : nat;
  busy : bool
}.

(** Modelled from the spec: "the caller awaiting its WorkResult", by
    name; Ray Serve's future objects are missing from the sources. *)
Definition caller : Type := nat.

(** Modelled from the spec: the Pool of the data model, "{ fixed-size
    ordered collection of Replicas, pending queue of WorkRequest,
    mapping from request id to the caller awaiting its WorkResult }",
    with the requests in Processing state kept next to the replica
    that runs them and the accepting flag that shutdown clears; Ray
    Serve's router state is missing from the sources. *)
Record Pool : Type := MkPool {
  replicas : list Replica;
  processing : list (nat * WorkRequest);
  pending : list WorkRequest;
  callers : gmap nat caller;
  accepting : bool
}.

(** Modelled from the spec: a WorkResult "delivered to the specific
    caller that submitted the matching WorkRequest"; missing from the
    sources. *)
Definition delivery : Type := caller * WorkResult.

(** Modelled from the spec: what reaches the dispatcher, [submit] from
    a caller, the return of a replica's [process] call with its
    outcome, and pool shutdown; Ray Serve's router entry points are
    missing from the sources. *)
Inductive action : Type :=
| Submit (c : caller) (req : WorkRequest)
| Complete (i : nat) (out : status)
| Shutdown.

(** Modelled from the spec: pool start-up with a replica count, every
    replica loaded and idle, nothing pending; Ray Serve's deployment
    start-up is missing from the sources. *)
Definition init (n : nat) : Pool :=
  MkPool (map (fun i => MkReplica i false) (seq 0 n)) [] [] ∅ true.

(** Modelled from the spec: setting the [busy] flag of the replica
    at position [i]; missing from the sources. *)
Definition set_busy (i : nat) (b : bool) (rs : list Replica) : list Replica :=
  alter (fun r => MkReplica (identity r) b) i rs.

(** Modelled from the spec: one admissible way to "pick any currently
    idle Replica", the first one in the collection; Ray Serve's
    replica scheduler is missing from the sources. *)
Definition first_idle (rs : list Replica) : option nat :=
  fst <$> list_find (fun r => busy r = false) rs.

(** Modelled from the spec: the request replica [i] is running, if
    it runs one ("exactly one in-flight WorkRequest per Replica at a
    time"); missing from the sources. *)
Definition processing_on (i : nat) (p : Pool) : option WorkRequest :=
  (fun x => x.2.2) <$> list_find (fun e => e.1 = i) (processing p).

Section Dispatcher.
(** The assignment policy: which idle replica is picked. *)
Variable pick : list Replica -> option nat.

(** Modelled from the spec: handing a request to replica [i], which
    becomes busy while the request is in Processing state; Ray
    Serve's assignment code is missing from the sources. *)
Definition assign (i : nat) (req : WorkRequest) (p : Pool) : Pool :=
  MkPool (set_busy i true (replicas p)) (processing p ++ [(i, req)])
         (pending p) (callers p) (accepting p).

(** Modelled from the spec: [submit]. "Pick any currently idle
    Replica"; "if no Replica is idle, the request waits in the
    pending queue in arrival order"; a request that arrives after
    shutdown began is "reported to caller, request not queued".
    Ray Serve's router is missing from the sources. *)
Definition submit (c : caller) (req : WorkRequest) (p : Pool) : Pool * list delivery :=
  if accepting p then
    let p1 := MkPool (replicas p) (processing p) (pending p)
                     (<[id req := c]> (callers p)) (accepting p) in
    match pick (replicas p1) with
    | Some i => (assign i req p1, [])
    | None =>
        (MkPool (replicas p1) (processing p1) (pending p1 ++ [req])
                (callers p1) (accepting p1), [])
    end
  else (p, [(c, MkResult (id req) (Failure "pool shutting down"))]).

(** Modelled from the spec: "no idle replica starves while requests
    queue": the head of the pending queue goes to an idle replica.
    Ray Serve's router is missing from the sources. *)
Definition dispatch_next (p : Pool) : Pool :=
  match pending p with
  | [] => p
  | req :: rest =>
      match pick (replicas p) with
      | Some i =>
          assign i req (MkPool (replicas p) (processing p) rest
                               (callers p) (accepting p))
      | None => p
      end
  end.

(** Modelled from the spec: the return of replica [i]'s [process]
    call. "The Dispatcher marks the replica idle again and delivers
    the ... WorkResult to the caller", Success or Failure alike.
    Ray Serve's router is missing from the sources. *)
Definition complete (i : nat) (out : status) (p : Pool) : Pool * list delivery :=
  match processing_on i p with
  | None => (p, [])
  | Some req =>
      let p1 := MkPool (set_busy i false (replicas p))
                       (filter (fun e => e.1 ≠ i) (processing p))
                       (pending p) (delete (id req) (callers p)) (accepting p) in
      (dispatch_next p1,
       match callers p !! id req with
       | Some c => [(c, MkResult (id req) out)]
       | None => []
       end)
  end.

(** Modelled from the spec: the results the pending requests get at
    shutdown, one "pool shutting down" failure each; missing from the
    sources. *)
Fixpoint fail_pending (cs : gmap nat caller) (reqs : list WorkRequest) : list delivery :=
  match reqs with
  | [] => []
  | req :: reqs' =>
      match cs !! id req with
      | Some c => (c, MkResult (id req) (Failure "pool shutting down")) :: fail_pending cs reqs'
      | None => fail_pending cs reqs'
      end
  end.

(** Modelled from the spec: pool shutdown, which "stops accepting
    new submissions, allows in-flight work to finish", and fails
    the pending requests "with a pool shutting down error rather
    than silently discarded". Ray Serve's shutdown is missing from
    the sources. *)
Definition shutdown (p : Pool) : Pool * list delivery :=
  (MkPool (replicas p) (processing p) []
          (foldr (fun req cs => delete (id req) cs) (callers p) (pending p)) false,
   fail_pending (callers p) (pending p)).

Definition step (p : Pool) (a : action) : Pool * list delivery :=
  match a with
  | Submit c req => submit c req p
  | Complete i out => complete i out p
  | Shutdown => shutdown p
  end.

(** The pool after a sequence of actions, with everything delivered
    on the way. *)
Fixpoint run (p : Pool) (acts : list action) : Pool * list delivery :=
  match acts with
  | [] => (p, [])
  | a :: acts' =>
      let '(p1, ds1) := step p a in
      let '(p2, ds2) := run p1 acts' in
      (p2, ds1 ++ ds2)
  end.


End Dispatcher.





(** What the dispatcher keeps true of its replicas: the collection
    keeps its size, a replica runs at most one request, the busy
    replicas are those that run one, and requests wait only while
    every replica is busy. *)
Definition slots_inv (n : nat) (p : Pool) : Prop :=
  length (replicas p) = n
  /\ NoDup (processing p).*1
  /\ (forall i, i ∈ (processing p).*1 <->
                exists r, replicas p !! i = Some r /\ busy r = true).

Definition capacity_inv (n : nat) (p : Pool) : Prop :=
  slots_inv n p
  /\ (pending p ≠ [] -> forall r, r ∈ replicas p -> busy r = true).


End Pool.

(** ** Concrete collaborators, for evaluating the definitions *)

(** A pipeline that draws a blank image of the size it is asked for. *)
Definition pipe_blank : string -> Z -> Z -> outcome (list image) :=
  fun _ height width => Ok [Image width height []].

(** A pipeline that fails without a word. *)
Definition pipe_silent : string -> Z -> Z -> outcome (list image) :=
  fun _ _ _ => Raised (PyError "RuntimeError" EmptyString).

(** A pipeline whose accelerator is out of memory. *)
Definition pipe_oom : string -> Z -> Z -> outcome (list image) :=
  fun _ _ _ => Raised (PyError "RuntimeError" "CUDA out of memory").

(** An encoder that writes the PNG signature in front of the pixels. *)
Definition png_signature : image -> bytes :=
  fun im => [Byte.x89; Byte.x50; Byte.x4e; Byte.x47] ++ im_pixels im.

(** A transport whose answer to the [n]-th request to reach it is [n]
    stars, a fixed uuid, steps that take one tick each, a display
    that works, and the world before anything has happened. *)
Definition transport_stars : nat -> http_request -> outcome http_response :=
  fun n _ => Ok (HttpResponse 200 (replicate n Byte.x2a)).

(** Two schedulers: one lets the task that has waited longest run
    next, the other the task that came last. *)
Definition schedule_fifo : list nat -> nat := fun _ => 0%nat.



Definition uuid_fixed : nat -> string := fun _ => "0123456789abcdef0123456789abcdef".

Definition cost_unit : cl_event -> Z := fun _ => 1.

Definition display_ok : list string -> outcome unit := fun _ => Ok tt.

Definition world0 : world := World [] 0 [] ∅ 0 0 ∅ ∅.

(** Five callers, 10 to 14, each submitting one request with the
    prompt "A", numbered 0 to 4. *)
Definition five_submissions : list Pool.action :=
  map (fun i => Pool.Submit (10 + i)%nat (Pool.MkRequest i "A" ∅)) (seq 0 5).

(** The lines of standard input that are taken as prompts: those
    before the first line that [main] reads as the wish to quit. *)
Fixpoint prompts_before_quit (stdin : list string) : list string :=
  match stdin with
  | [] => []
  | line :: stdin' =>
      if bool_decide (lower line = "q") then [] else line :: prompts_before_quit stdin'
  end.




(** A pipeline that returns two images where one was asked for. *)
Definition pipe_pair : string -> Z -> Z -> outcome (list image) :=
  fun _ height width => Ok [Image width height []; Image 1 1 [Byte.x00]].

(** * Properties *)

(** ** Worker replica and ingress endpoint *)

Lemma len_truthy_empty : len_truthy EmptyString = false.
Proof. reflexivity. Qed.

Lemma len_truthy_nonempty (s : string) : s ≠ EmptyString -> len_truthy s = true.
Proof. destruct s; [congruence | reflexivity]. Qed.

Section ServeProperties.
Variable pipe : string -> Z -> Z -> outcome (list image).
Variable handle_generate : string -> option Z -> M srv_state image.
Variable png_encode : image -> bytes.

(** The ingress, once the prompt has passed the assertion. *)
Lemma ingress_generate_nonempty prompt img_size s :
  prompt ≠ EmptyString ->
  APIIngress.generate handle_generate png_encode prompt img_size s =
  match handle_generate prompt (Some (default 776 img_size))
          (s ++ [EvRemote prompt (default 776 img_size)]) with
  | (Ok im, s') => (Ok (MkResponse (png_encode im) "image/png" 200), s')
  | (Raised e, s') => (Raised e, s')
  end.
Proof.
  intros Hne. unfold APIIngress.generate, APIIngress.remote_generate, bind, emit.
  rewrite (len_truthy_nonempty _ Hne). simpl.
  destruct (handle_generate _ _ _) as [[im|e] s']; reflexivity.
Qed.

(** The replica, once the prompt has passed the assertion. *)
Lemma replica_generate_nonempty prompt img_size s :
  prompt ≠ EmptyString ->
  StableDiffusionV2.generate pipe prompt img_size s =
  (match pipe prompt (default 776 img_size) (default 776 img_size) with
   | Ok (im :: _) => Ok im
   | Ok [] => Raised (IndexError "list index out of range")
   | Raised e => Raised e
   end,
   s ++ [EvPipe prompt (default 776 img_size) (default 776 img_size)]).
Proof.
  intros Hne. unfold StableDiffusionV2.generate, StableDiffusionV2.call_pipe, bind.
  rewrite (len_truthy_nonempty _ Hne). simpl.
  destruct (pipe _ _ _) as [[|im ims]|e]; reflexivity.
Qed.

(** C3, as amended. A call to [/imagine] with the empty prompt ends
    in the endpoint's own [AssertionError], raised before the
    deployment handle is used: whatever the handle is, it is not
    called and nothing is recorded. The error escapes the route, so
    it goes out with status 500, not as a client-fault response. *)
Theorem ingress_empty_prompt_asserts img_size s :
  APIIngress.generate handle_generate png_encode EmptyString img_size s =
    (Raised (AssertionError "prompt parameter cannot be empty"), s)
  /\ APIIngress.http_status
       (APIIngress.generate handle_generate png_encode EmptyString img_size s).1 = 500.
Proof. split; reflexivity. Qed.

(** C4, as amended. The endpoint puts no bound on [img_size]: for a
    non-empty prompt, every integer, non-positive ones included, is
    handed to the deployment handle as it came, and the answer is
    whatever the replica makes of it. *)
Theorem ingress_size_unchecked prompt (size : Z) s :
  prompt ≠ EmptyString ->
  APIIngress.generate handle_generate png_encode prompt (Some size) s =
  match handle_generate prompt (Some size) (s ++ [EvRemote prompt size]) with
  | (Ok im, s') => (Ok (MkResponse (png_encode im) "image/png" 200), s')
  | (Raised e, s') => (Raised e, s')
  end.
Proof. intros Hne. exact (ingress_generate_nonempty prompt (Some size) s Hne). Qed.

(** C5, as amended. The replica's [generate] handles no error: a
    failure is never returned as a result, it is raised to the
    caller. What [generate] returns is always an image, the first of
    a pipeline result for a non-empty prompt. The empty prompt
    raises the assertion's error, with its message, before the
    pipeline is run; an error of the pipeline is raised as it came,
    with whatever message it carries; a pipeline result without
    images raises an [IndexError]. There is no other failure, and
    the endpoint that awaits the call is raised the same error. *)
Theorem replica_failures_are_raised prompt img_size s :
  let size := default 776 img_size in
  let r := StableDiffusionV2.generate pipe prompt img_size s in
  (forall im, r.1 = Ok im ->
     prompt ≠ EmptyString /\ exists rest, pipe prompt size size = Ok (im :: rest))
  /\ (prompt = EmptyString ->
       r = (Raised (AssertionError "prompt parameter cannot be empty"), s))
  /\ (prompt ≠ EmptyString -> forall e, pipe prompt size size = Raised e ->
        r = (Raised e, s ++ [EvPipe prompt size size]))
  /\ (prompt ≠ EmptyString -> pipe prompt size size = Ok [] ->
        r = (Raised (IndexError "list index out of range"),
             s ++ [EvPipe prompt size size]))
  /\ (forall e, r.1 = Raised e ->
        (prompt = EmptyString /\ e = AssertionError "prompt parameter cannot be empty")
        \/ (prompt ≠ EmptyString /\ pipe prompt size size = Raised e)
        \/ (prompt ≠ EmptyString /\ pipe prompt size size = Ok []
                      /\ e = IndexError "list index out of range"))
  /\ (forall e, prompt ≠ EmptyString ->
        (StableDiffusionV2.generate pipe prompt (Some size)
           (s ++ [EvRemote prompt size])).1 = Raised e ->
        (APIIngress.generate (StableDiffusionV2.generate pipe) png_encode
           prompt img_size s).1 = Raised e).
Proof.
  intros size r. subst r size. split; [| split; [| split; [| split; [| split]]]].
  - intros im. destruct (decide (prompt = EmptyString)) as [->|Hne].
    + discriminate.
    + rewrite replica_generate_nonempty by done. simpl.
      destruct (pipe _ _ _) as [[|im' rest]|e]; intros [= <-]. eauto.
  - intros ->. reflexivity.
  - intros Hne e He. rewrite replica_generate_nonempty by done. by rewrite He.
  - intros Hne He. rewrite replica_generate_nonempty by done. by rewrite He.
  - intros e. destruct (decide (prompt = EmptyString)) as [->|Hne].
    + simpl. intros [= <-]. left. done.
    + rewrite replica_generate_nonempty by done. simpl.
      destruct (pipe _ _ _) as [[|im ims]|e'] eqn:Hp; intros [= <-];
        right; [right | left]; done.
  - intros e Hne He.
    unfold APIIngress.generate, APIIngress.remote_generate, bind, emit.
    rewrite (len_truthy_nonempty _ Hne). simpl.
    destruct (StableDiffusionV2.generate _ _ _ _) as [[im|e'] s'];
      simpl in *; congruence.
Qed.
End ServeProperties.

(** The claim of C3 fails at the empty prompt: the answer is the
    escaped assertion, which is not a client-fault response. *)
Lemma ingress_empty_prompt_not_client_fault :
  (entrypoint pipe_blank png_signature EmptyString None []).1
    = Raised (AssertionError "prompt parameter cannot be empty")
  /\ APIIngress.client_fault (entrypoint pipe_blank png_signature EmptyString None []).1 = false.
Proof. split; reflexivity. Qed.

(** The claim of C4 fails at [img_size = -8]: the request is neither
    refused nor answered with a client error, it reaches the replica,
    whose pipeline is run with height and width [-8]. *)
Lemma ingress_negative_size_forwarded :
  entrypoint pipe_blank png_signature "a" (Some (-8)) []
    = (Ok (MkResponse (png_signature (Image (-8) (-8) [])) "image/png" 200),
       [EvRemote "a" (-8); EvPipe "a" (-8) (-8)])
  /\ APIIngress.client_fault
       (entrypoint pipe_blank png_signature "a" (Some (-8)) []).1 = false.
Proof. split; reflexivity. Qed.

Lemma ingress_size_unchecked_witness :
  "a" ≠ EmptyString /\
  APIIngress.generate (StableDiffusionV2.generate pipe_blank) png_signature
    "a" (Some 0) []
  = (Ok (MkResponse (png_signature (Image 0 0 [])) "image/png" 200),
     [EvRemote "a" 0; EvPipe "a" 0 0]).
Proof.
  split; [discriminate |].
  rewrite (ingress_size_unchecked (StableDiffusionV2.generate pipe_blank)
             png_signature "a" 0 []); [reflexivity | discriminate].
Defined.

(** The claim of C5 fails at the empty prompt and at a pipeline that
    fails without a word: in both cases [generate] returns nothing,
    the error is raised, and in the second the error that reaches
    the caller says nothing. *)
Lemma replica_failure_is_raised_not_returned :
  is_ok (StableDiffusionV2.generate pipe_silent EmptyString None []).1 = false
  /\ (StableDiffusionV2.generate pipe_silent EmptyString None []).1
     = Raised (AssertionError "prompt parameter cannot be empty")
  /\ is_ok (StableDiffusionV2.generate pipe_silent "a cat" None []).1 = false
  /\ (StableDiffusionV2.generate pipe_silent "a cat" None []).1
     = Raised (PyError "RuntimeError" EmptyString)
  /\ exn_msg (PyError "RuntimeError" EmptyString) = EmptyString.
Proof. repeat split. Qed.

Lemma replica_failures_are_raised_witness :
  StableDiffusionV2.generate pipe_oom EmptyString None []
    = (Raised (AssertionError "prompt parameter cannot be empty"), [])
  /\ StableDiffusionV2.generate pipe_oom "a" None []
    = (Raised (PyError "RuntimeError" "CUDA out of memory"), [EvPipe "a" 776 776])
  /\ exists rest, pipe_pair "a" 776 776 = Ok (Image 776 776 [] :: rest).
Proof.
  destruct (replica_failures_are_raised pipe_oom png_signature EmptyString None [])
    as (_ & Hempty & _).
  destruct (replica_failures_are_raised pipe_oom png_signature "a" None [])
    as (_ & _ & Hpipe & _).
  destruct (replica_failures_are_raised pipe_pair png_signature "a" None [])
    as (Hok & _).
  split; [| split].
  - apply Hempty. reflexivity.
  - apply Hpipe; [discriminate | reflexivity].
  - exact (proj2 (Hok (Image 776 776 []) eq_refl)).
Defined.

Section ImageProperties.
Variable pipe : string -> Z -> Z -> outcome (list image).
Variable handle_generate : string -> option Z -> M srv_state image.
Variable png_encode : image -> bytes.

(** C9. Whenever a call to [/imagine] succeeds, the deployment
    handle has returned an image, the body of the response is the
    PNG encoding of that image, and the response is of type
    [image/png] (status 200). *)
Theorem ingress_success_is_png prompt img_size s resp s' :
  APIIngress.generate handle_generate png_encode prompt img_size s = (Ok resp, s') ->
  media_type resp = "image/png"
  /\ status_code resp = 200
  /\ exists im,
       handle_generate prompt (Some (default 776 img_size))
         (s ++ [EvRemote prompt (default 776 img_size)]) = (Ok im, s')
       /\ content resp = png_encode im.
Proof.
  destruct (decide (prompt = EmptyString)) as [->|Hne].
  - discriminate.
  - rewrite ingress_generate_nonempty by done.
    destruct (handle_generate _ _ _) as [[im|e] s1]; intros [= <- <-].
    simpl. eauto.
Qed.

(** C10. For a non-empty prompt the endpoint hands [img_size] (776
    when the caller gave none) to the replica unchanged, and the
    replica runs its pipeline with that value as height and as
    width. With a pipeline that draws images of the height and
    width it is asked for, the image behind every successful
    response is a square of side [img_size]. *)
Theorem image_is_square_of_img_size prompt img_size s :
  prompt ≠ EmptyString ->
  (forall p h w ims, pipe p h w = Ok ims ->
     Forall (fun im => im_height im = h /\ im_width im = w) ims) ->
  let size := default 776 img_size in
  (img_size = None -> size = 776)
  /\ (entrypoint pipe png_encode prompt img_size s).2
       = s ++ [EvRemote prompt size; EvPipe prompt size size]
  /\ (forall resp,
        (entrypoint pipe png_encode prompt img_size s).1 = Ok resp ->
        exists im, content resp = png_encode im
                   /\ im_height im = size /\ im_width im = size).
Proof.
  intros Hne Hpipe size. subst size. unfold entrypoint.
  rewrite ingress_generate_nonempty by done.
  rewrite replica_generate_nonempty by done. simpl.
  split; [by intros -> |].
  destruct (pipe _ _ _) as [[|im ims]|e] eqn:Hp; simpl;
    (split; [by rewrite <- app_assoc |]); intros resp; try discriminate.
  intros [= <-]. exists im. simpl. split; [done |].
  apply Hpipe in Hp. by inversion Hp.
Qed.
End ImageProperties.

Lemma ingress_success_is_png_witness :
  exists resp,
    entrypoint pipe_blank png_signature "a cat" (Some 512) []
      = (Ok resp, [EvRemote "a cat" 512; EvPipe "a cat" 512 512])
    /\ media_type resp = "image/png"
    /\ content resp = png_signature (Image 512 512 []).
Proof.
  eexists. split; [reflexivity |].
  destruct (ingress_success_is_png (StableDiffusionV2.generate pipe_blank)
              png_signature "a cat" (Some 512) [] _ _ eq_refl)
    as (Hty & _ & im & Him & Hc).
  split; [exact Hty |]. rewrite Hc. injection Him as <-. reflexivity.
Defined.

Lemma image_is_square_of_img_size_witness :
  (entrypoint pipe_blank png_signature "a cat" None []).2
    = [EvRemote "a cat" 776; EvPipe "a cat" 776 776]
  /\ exists im,
       content (MkResponse (png_signature (Image 776 776 [])) "image/png" 200)
         = png_signature im
       /\ im_height im = 776 /\ im_width im = 776.
Proof.
  assert (Hne : "a cat" ≠ EmptyString) by discriminate.
  assert (Hpipe : forall p h w ims, pipe_blank p h w = Ok ims ->
            Forall (fun im => im_height im = h /\ im_width im = w) ims).
  { intros p h w ims [= <-]. repeat constructor. }
  destruct (image_is_square_of_img_size pipe_blank png_signature "a cat" None []
              Hne Hpipe) as (_ & Htrace & Hsq).
  split; [exact Htrace |]. exact (Hsq _ eq_refl).
Defined.

(** ** Fan-out client *)

Section ClientProperties.
Variable SMOKE_TEST : bool.
Variable transport : nat -> http_request -> outcome http_response.
Variable schedule : list nat -> nat.
Variable uuid4_hex : nat -> string.
Variable cost : cl_event -> Z.
Variable plt_display : list string -> outcome unit.
Variable NUM_IMAGES_PER_PROMPT : Z.

Local Abbreviation generate_image_remote := (Client.generate_image_remote cost).
Local Abbreviation submit_all := (Client.submit_all cost).
Local Abbreviation generate_many := (Client.generate_many SMOKE_TEST transport schedule cost).
Local Abbreviation image_request := (Client.image_request SMOKE_TEST).
Local Abbreviation task_result := (Client.task_result SMOKE_TEST transport).
Local Abbreviation total_cost := (Client.total_cost cost).
Local Abbreviation write_images := (Client.write_images cost).
Local Abbreviation iteration :=
  (Client.iteration SMOKE_TEST transport schedule uuid4_hex cost plt_display NUM_IMAGES_PER_PROMPT).

Lemma total_cost_app evs1 evs2 :
  total_cost (evs1 ++ evs2) = total_cost evs1 + total_cost evs2.
Proof.
  induction evs1 as [|ev evs1 IH]; simpl; [done |].
  unfold Client.total_cost in *. simpl. rewrite IH. lia.
Qed.

Lemma generate_image_remote_eq prompt w :
  generate_image_remote prompt w =
  (Ok (next_ref w),
   World (trace w ++ [EvSubmit (next_ref w) prompt])
         (clock w + cost (EvSubmit (next_ref w) prompt))
         (sent w)
         (<[next_ref w := Scheduled prompt]> (objects w))
         (S (next_ref w)) (uuids_drawn w) (dirs w) (files w)).
Proof. reflexivity. Qed.

(** What the world looks like once [count] tasks have been handed
    to Ray: they wait, and no request has been made. *)
Lemma submit_all_spec prompt count w :
  exists w',
    submit_all prompt count w = (Ok (seq (next_ref w) count), w')
    /\ trace w' = trace w ++ Client.submit_events (next_ref w) prompt count
    /\ clock w' = clock w + total_cost (Client.submit_events (next_ref w) prompt count)
    /\ sent w' = sent w
    /\ next_ref w' = (next_ref w + count)%nat
    /\ (forall i, (i < count)%nat ->
          objects w' !! (next_ref w + i)%nat = Some (Scheduled prompt))
    /\ (forall k, (k < next_ref w)%nat -> objects w' !! k = objects w !! k)
    /\ uuids_drawn w' = uuids_drawn w /\ dirs w' = dirs w /\ files w' = files w.
Proof.
  revert w. induction count as [|n IH]; intros w.
  - exists w. unfold Client.submit_events. simpl.
    rewrite !app_nil_r, Z.add_0_r, Nat.add_0_r.
    repeat split; try done. intros i Hi. lia.
  - assert (Hev : Client.submit_events (next_ref w) prompt (S n)
            = EvSubmit (next_ref w) prompt
                :: Client.submit_events (S (next_ref w)) prompt n).
    { unfold Client.submit_events. simpl. rewrite Nat.add_0_r. f_equal.
      rewrite <- seq_shift, map_map. apply map_ext. intros i.
      f_equal. lia. }
    rewrite Hev. clear Hev.
    change (submit_all prompt (S n) w)
      with (bind (generate_image_remote prompt)
              (fun ref => bind (submit_all prompt n)
                            (fun refs => ret (ref :: refs))) w).
    unfold bind at 1. rewrite generate_image_remote_eq.
    set (w1 := World _ _ _ _ _ _ _ _).
    destruct (IH w1) as (w' & Hrun & Htr & Hck & Hsent & Href & Hnew & Hold & Hu & Hd & Hf).
    exists w'. unfold bind at 1. rewrite Hrun.
    subst w1. cbn [trace clock sent objects next_ref uuids_drawn dirs files] in *.
    split; [reflexivity |]. repeat split.
    + rewrite Htr, <- app_assoc. reflexivity.
    + rewrite Hck. unfold Client.total_cost. cbn [foldr]. lia.
    + done.
    + rewrite Href. lia.
    + intros [|i] Hi.
      * rewrite !Nat.add_0_r, Hold by lia. apply lookup_insert_eq.
      * replace (next_ref w + S i)%nat with (S (next_ref w) + i)%nat by lia.
        apply Hnew. lia.
    + intros k Hk. rewrite Hold by lia. apply lookup_insert_ne. lia.
    + done.
    + done.
    + done.
Qed.

Lemma run_task_eq ref prompt w :
  objects w !! ref = Some (Scheduled prompt) ->
  Client.run_task SMOKE_TEST transport ref w =
  World (trace w) (clock w) (sent w ++ [image_request prompt])
        (<[ref := Finished (task_result (length (sent w)) prompt)]> (objects w))
        (next_ref w) (uuids_drawn w) (dirs w) (files w).
Proof.
  intros Href. unfold Client.run_task. rewrite Href.
  unfold Client.generate_image, Client.requests_get, Client.task_result,
    Client.image_request, bind, ret. simpl.
  destruct (transport _ _); reflexivity.
Qed.

(** Tasks that wait, run in some order: each makes its request, the
    [k]-th to run being the [k]-th to reach the transport from then
    on, and leaves its result in the store. *)
Lemma run_in_order prompt order w :
  NoDup order ->
  (forall ref, ref ∈ order -> objects w !! ref = Some (Scheduled prompt)) ->
  let w' := foldl (fun w ref => Client.run_task SMOKE_TEST transport ref w) w order in
  trace w' = trace w /\ clock w' = clock w
  /\ sent w' = sent w ++ replicate (length order) (image_request prompt)
  /\ next_ref w' = next_ref w
  /\ (forall k ref, order !! k = Some ref ->
        objects w' !! ref
          = Some (Finished (task_result (length (sent w) + k) prompt)))
  /\ (forall ref, ref ∉ order -> objects w' !! ref = objects w !! ref)
  /\ uuids_drawn w' = uuids_drawn w /\ dirs w' = dirs w /\ files w' = files w.
Proof.
  revert w. induction order as [|ref order IH]; intros w Hnd Hall.
  - simpl. rewrite app_nil_r. repeat split; try done.
  - apply NoDup_cons in Hnd as [Hfresh Hnd]. cbn [foldl].
    rewrite (run_task_eq ref prompt w) by (apply Hall; by left).
    set (w1 := World _ _ _ _ _ _ _ _).
    destruct (IH w1 Hnd) as (Htr & Hck & Hsent & Href & Hnew & Hold & Hu & Hd & Hf).
    { intros r Hr. subst w1. cbn [objects].
      rewrite lookup_insert_ne by (intros ->; done). apply Hall. by right. }
    subst w1. cbn [trace clock sent objects next_ref uuids_drawn dirs files] in *.
    repeat split; try done.
    + rewrite Hsent, <- app_assoc. done.
    + intros [|k] r Hk.
      * injection Hk as <-. rewrite Hold by done.
        rewrite Nat.add_0_r. apply lookup_insert_eq.
      * rewrite (Hnew k r Hk), length_app. cbn [length]. do 3 f_equal. lia.
    + intros r Hr. apply not_elem_of_cons in Hr as [Hne Hr].
      rewrite Hold by done. by apply lookup_insert_ne.
Qed.

(** Whatever the scheduler, every waiting task runs, and runs once. *)
Lemma run_order_go_perm (sched : list nat -> nat) n waiting :
  length waiting = n -> Client.run_order_go sched n waiting ≡ₚ waiting.
Proof.
  revert waiting. induction n as [|n IH]; intros waiting Hlen.
  - by destruct waiting.
  - cbn [Client.run_order_go]. cbv zeta.
    assert (Hk : (sched waiting mod length waiting < length waiting)%nat).
    { apply Nat.mod_upper_bound. lia. }
    destruct (lookup_lt_is_Some_2 _ _ Hk) as [ref Hr]. rewrite Hr.
    rewrite IH by (rewrite length_delete by eauto; lia).
    symmetry. by apply delete_Permutation.
Qed.

Lemma run_order_perm (sched : list nat -> nat) waiting :
  Client.run_order sched waiting ≡ₚ waiting.
Proof. by apply run_order_go_perm. Qed.



Lemma filter_scheduled_all (store : gmap nat task_state) (refs : list nat) :
  (forall ref, ref ∈ refs -> Client.is_scheduled store ref = true) ->
  filter (fun ref => Client.is_scheduled store ref = true) refs = refs.
Proof.
  induction refs as [|ref refs IH]; intros Hall; [done |].
  rewrite filter_cons_True by (apply Hall; by left).
  f_equal. apply IH. intros r Hr. apply Hall. by right.
Qed.



(** The fan-out as a whole: the world after it, and its result as
    what [ray.get] finds for the references just handed out. *)
Lemma generate_many_spec prompt count w :
  exists w',
    generate_many prompt count w = (Client.fetch (objects w') (seq (next_ref w) count), w')
    /\ trace w' = trace w ++ Client.fan_out_events (next_ref w) prompt count
    /\ clock w' = clock w + total_cost (Client.fan_out_events (next_ref w) prompt count)
    /\ sent w' = sent w ++ replicate count (image_request prompt)
    /\ next_ref w' = (next_ref w + count)%nat
    /\ (forall k ref,
          Client.run_order schedule (seq (next_ref w) count) !! k = Some ref ->
          objects w' !! ref
            = Some (Finished (task_result (length (sent w) + k) prompt)))
    /\ (forall k, (k < next_ref w)%nat -> objects w' !! k = objects w !! k)
    /\ uuids_drawn w' = uuids_drawn w /\ dirs w' = dirs w /\ files w' = files w.
Proof.
  destruct (submit_all_spec prompt count w)
    as (w1 & Hrun & Htr & Hck & Hsent & Href & Hnew & Hold & Hu & Hd & Hf).
  unfold Client.generate_many, bind. rewrite Hrun.
  unfold Client.ray_get, bind, Client.log. cbn [fst snd objects].
  set (refs := seq (next_ref w) count).
  assert (Hsch : forall ref, ref ∈ refs -> objects w1 !! ref = Some (Scheduled prompt)).
  { intros ref Hr. apply elem_of_seq in Hr.
    replace ref with (next_ref w + (ref - next_ref w))%nat by lia. apply Hnew. lia. }
  rewrite filter_scheduled_all
    by (intros ref Hr; unfold Client.is_scheduled; by rewrite (Hsch ref Hr)).
  unfold Client.run_tasks.
  pose proof (run_order_perm schedule refs) as Hperm.
  set (w1' := World _ _ _ _ _ _ _ _).
  destruct (run_in_order prompt (Client.run_order schedule refs) w1')
    as (Htr2 & Hck2 & Hsent2 & Href2 & Hnew2 & Hold2 & Hu2 & Hd2 & Hf2).
  { rewrite Hperm. apply NoDup_seq. }
  { intros ref Hr. rewrite Hperm in Hr. by apply Hsch. }
  pose proof (Permutation_length Hperm) as Hlen.
  subst refs. rewrite length_seq in Hlen. rewrite Hlen in Hsent2.
  eexists. split; [reflexivity |].
  rewrite Htr2, Hck2, Hsent2, Href2, Hu2, Hd2, Hf2.
  split; [| split; [| split; [| split; [| split; [| split]]]]].
  - subst w1'. cbn [trace]. unfold Client.fan_out_events.
    by rewrite Htr, app_assoc.
  - subst w1'. cbn [clock]. unfold Client.fan_out_events.
    rewrite total_cost_app, Hck. unfold Client.total_cost at 3. cbn [foldr]. lia.
  - subst w1'. cbn [sent]. by rewrite Hsent.
  - subst w1'. cbn [next_ref]. done.
  - intros k ref Hk. rewrite (Hnew2 k ref Hk). subst w1'. cbn [sent].
    by rewrite Hsent.
  - intros k Hk. rewrite Hold2.
    + subst w1'. cbn [objects]. by apply Hold.
    + rewrite Hperm. intros Hin. apply elem_of_seq in Hin. lia.
  - subst w1'. cbn [uuids_drawn dirs files]. done.
Qed.


Lemma write_images_eq dirname images i names w :
  write_images dirname i images names w =
  (Ok (names ++ map (Client.image_filename dirname) (seq i (length images))),
   World (trace w ++ Client.write_events dirname i images)
         (clock w + total_cost (Client.write_events dirname i images))
         (sent w) (objects w) (next_ref w) (uuids_drawn w) (dirs w)
         (Client.files_after dirname i images (files w))).
Proof.
  revert i names w. induction images as [|image images IH]; intros i names w.
  - simpl. unfold ret. rewrite !app_nil_r, Z.add_0_r. by destruct w.
  - cbn [Client.write_images Client.write_events Client.files_after length seq map].
    unfold bind at 1. unfold Client.write_file, bind, Client.log. cbn [fst snd].
    rewrite IH. cbn [trace clock sent objects next_ref uuids_drawn dirs files].
    unfold Client.total_cost, Client.image_filename. cbn [foldr].
    rewrite <- !app_assoc, Z.add_assoc. reflexivity.
Qed.

(** One pass of the loop, step by step. *)
Lemma iteration_eq prompt gts w :
  iteration prompt gts w =
  let w1 := (Client.log cost (EvPrint "Generating image(s)...") w).2 in
  let '(r, w2) := generate_many prompt (Z.to_nat NUM_IMAGES_PER_PROMPT) w1 in
  match r with
  | Raised e => (Raised e, w2)
  | Ok images =>
      let dirname := String.substring 0 8 (uuid4_hex (uuids_drawn w2)) in
      let w3 := World (trace w2 ++ [EvMakedirs dirname])
                      (clock w2 + cost (EvMakedirs dirname))
                      (sent w2) (objects w2) (next_ref w2)
                      (S (uuids_drawn w2)) (dirs w2) (files w2) in
      if bool_decide (dirname ∈ dirs w2)
      then (Raised (PyError "FileExistsError" dirname), w3)
      else
        let writes := Client.write_events dirname 0 images in
        let filenames := map (Client.image_filename dirname) (seq 0 (length images)) in
        let elapsed := clock w3 + total_cost writes - clock w1 in
        (match plt_display filenames with
         | Ok _ => Ok (gts ++ [elapsed])
         | Raised e => Raised e
         end,
         World (trace w3 ++ writes
                  ++ [EvReport (length images) elapsed dirname; EvShow filenames])
               (clock w3 + total_cost writes
                  + cost (EvReport (length images) elapsed dirname)
                  + cost (EvShow filenames))
               (sent w2) (objects w2) (next_ref w2) (S (uuids_drawn w2))
               ({[dirname]} ∪ dirs w2)
               (Client.files_after dirname 0 images (files w2)))
  end.
Proof.
  unfold Client.iteration.
  cbv [bind Client.log Client.time_time Client.uuid4_hex8 Client.os_makedirs
       Client.show_images ret].
  cbn [fst snd trace clock sent objects next_ref uuids_drawn dirs files].
  destruct (generate_many _ _ _) as [[images|e] w2]; [| reflexivity].
  cbn [fst snd trace clock sent objects next_ref uuids_drawn dirs files].
  case_bool_decide; [reflexivity |].
  rewrite write_images_eq.
  cbn [fst snd trace clock sent objects next_ref uuids_drawn dirs files app].
  destruct (plt_display _); rewrite <- !app_assoc; reflexivity.
Qed.

(** C7. With a count of zero the fan-out returns the empty list and
    raises nothing; no task is handed to Ray and no request is made,
    so neither the endpoint nor the replicas behind it are reached.
    The same holds for the whole pass of [main]'s loop around it,
    whatever becomes of the directory and of the display. *)
Theorem fan_out_of_nothing prompt gts w :
  generate_many prompt 0 w =
    (Ok [], World (trace w ++ [EvRayGet []]) (clock w + cost (EvRayGet []))
                  (sent w) (objects w) (next_ref w) (uuids_drawn w) (dirs w) (files w))
  /\ sent (Client.iteration SMOKE_TEST transport schedule uuid4_hex cost plt_display 0
             prompt gts w).2 = sent w
  /\ objects (Client.iteration SMOKE_TEST transport schedule uuid4_hex cost plt_display 0
                prompt gts w).2 = objects w.
Proof.
  split; [reflexivity |].
  unfold Client.iteration. change (Z.to_nat 0) with 0%nat.
  cbv [bind Client.log Client.time_time Client.uuid4_hex8 Client.os_makedirs
       Client.show_images ret Client.generate_many Client.submit_all Client.ray_get
       Client.fetch Client.write_images].
  cbn [fst snd trace clock sent objects next_ref uuids_drawn dirs files].
  case_bool_decide; [done |].
  cbn [fst snd trace clock sent objects next_ref uuids_drawn dirs files].
  destruct (plt_display []); done.
Qed.

(** C8, as amended. A pass that completes adds exactly one
    measurement to [generation_times]. The clock is read for the
    second time only after the directory has been made and every
    output has been written to its file, so the measurement is the
    time from the issuance of the requests to the retrieval of the
    last result plus the time to make the directory and to write the
    files; the display that follows is not in it. *)
Theorem elapsed_includes_file_writes prompt gts w gts' w' :
  iteration prompt gts w = (Ok gts', w') ->
  exists images dirname,
    (generate_many prompt (Z.to_nat NUM_IMAGES_PER_PROMPT)
       (Client.log cost (EvPrint "Generating image(s)...") w).2).1 = Ok images
    /\ dirname = String.substring 0 8 (uuid4_hex (uuids_drawn w))
    /\ gts' = gts ++ [Client.retrieval_interval SMOKE_TEST transport schedule cost
                        NUM_IMAGES_PER_PROMPT prompt w
                      + cost (EvMakedirs dirname)
                      + total_cost (Client.write_events dirname 0 images)]
    /\ length gts' = S (length gts).
Proof.
  rewrite iteration_eq. unfold Client.retrieval_interval.
  set (w1 := (Client.log cost _ w).2).
  destruct (generate_many_spec prompt (Z.to_nat NUM_IMAGES_PER_PROMPT) w1)
    as (w2 & Hrun & _ & _ & _ & _ & _ & _ & Hu & _).
  cbv zeta. rewrite Hrun. cbn [fst snd].
  destruct (Client.fetch _ _) as [images|e]; [| discriminate].
  case_bool_decide; [discriminate |].
  destruct (plt_display _); [| discriminate].
  intros [= <- _].
  exists images, (String.substring 0 8 (uuid4_hex (uuids_drawn w))).
  rewrite Hu. subst w1. cbn [uuids_drawn clock Client.log snd].
  split; [done |]. split; [done |]. split.
  - do 2 f_equal. lia.
  - rewrite length_app. simpl. lia.
Qed.
End ClientProperties.


(** The claim of C8 fails for a batch of one image with steps of one
    tick: the measurement recorded is 4 ticks, the time from the
    issuance of the request to the retrieval of its result is 2; the
    other two went into making the directory and writing the file. *)
Lemma elapsed_is_not_retrieval_interval :
  (Client.iteration false transport_stars schedule_fifo uuid_fixed cost_unit display_ok 1
     "p" [] world0).1 = Ok [4]
  /\ Client.retrieval_interval false transport_stars schedule_fifo cost_unit 1 "p" world0 = 2
  /\ (Client.iteration false transport_stars schedule_fifo uuid_fixed cost_unit display_ok 1
        "p" [] world0).1
     ≠ Ok [Client.retrieval_interval false transport_stars schedule_fifo cost_unit 1 "p" world0].
Proof.
  split; [vm_compute; reflexivity |].
  split; [vm_compute; reflexivity |].
  vm_compute. discriminate.
Qed.

Lemma elapsed_includes_file_writes_witness :
  exists gts',
    (Client.iteration false transport_stars schedule_fifo uuid_fixed cost_unit display_ok 1
       "p" [] world0).1 = Ok gts'
    /\ gts' = [Client.retrieval_interval false transport_stars schedule_fifo cost_unit 1 "p" world0
               + cost_unit (EvMakedirs "01234567")
               + Client.total_cost cost_unit
                   (Client.write_events "01234567" 0 [[]])].
Proof.
  destruct (Client.iteration false transport_stars schedule_fifo uuid_fixed cost_unit display_ok 1
              "p" [] world0) as [[gts'|e] w'] eqn:Hit.
  - exists gts'. split; [reflexivity |].
    destruct (elapsed_includes_file_writes false transport_stars schedule_fifo uuid_fixed
                cost_unit display_ok 1 "p" [] world0 gts' w' Hit)
      as (images & dirname & Himg & -> & -> & _).
    vm_compute in Himg. injection Himg as <-. reflexivity.
  - vm_compute in Hit. discriminate Hit.
Defined.

(** ** Replica pool *)

Section PoolProperties.
Import Pool.
Variable pick : list Replica -> option nat.
Hypothesis pick_idle :
  forall rs i, pick rs = Some i -> exists r, rs !! i = Some r /\ busy r = false.
Hypothesis pick_none :
  forall rs, pick rs = None -> forall r, r ∈ rs -> busy r = true.

Lemma set_busy_lookup i j b rs :
  set_busy i b rs !! j
  = if decide (i = j) then (fun r => MkReplica (identity r) b) <$> rs !! i
    else rs !! j.
Proof. unfold set_busy. apply list_lookup_alter. Qed.

Lemma capacity_inv_init n : capacity_inv n (init n).
Proof.
  unfold capacity_inv, slots_inv, init. simpl. rewrite length_map, length_seq.
  split; [| done]. split; [done |]. split; [constructor |].
  intros i. split.
  - intros Hi. by apply elem_of_nil in Hi.
  - intros (r & Hr & Hb). rewrite list_lookup_fmap in Hr.
    destruct (seq 0 n !! i); simplify_eq/=.
Qed.

Lemma capacity_inv_assign n i req p :
  slots_inv n p ->
  (exists r, replicas p !! i = Some r /\ busy r = false) ->
  (pending p ≠ [] -> forall j r, replicas p !! j = Some r -> j ≠ i -> busy r = true) ->
  capacity_inv n (assign i req p).
Proof.
  intros (Hlen & Hnd & Hbusy) (r & Hr & Hidle) Hrest.
  assert (Hfresh : i ∉ (processing p).*1).
  { intros Hin. apply Hbusy in Hin as (r' & Hr' & Hb'). congruence. }
  unfold capacity_inv, slots_inv, assign. simpl.
  split; [split; [| split] |].
  - unfold set_busy. by rewrite length_alter.
  - rewrite fmap_app. apply NoDup_app. split; [done |]. split.
    + intros x Hx. simpl. rewrite list_elem_of_singleton. by intros ->.
    + simpl. apply NoDup_singleton.
  - intros j. rewrite fmap_app, elem_of_app. simpl.
    rewrite list_elem_of_singleton, set_busy_lookup.
    case_decide as Hij.
    + subst j. split.
      * intros _. rewrite Hr. simpl. eauto.
      * intros _. by right.
    + rewrite Hbusy. split; [intros [H|H]; [done | congruence] | by left].
  - intros Hpend r' Hr'.
    apply list_elem_of_lookup in Hr' as [j Hj].
    rewrite set_busy_lookup in Hj. case_decide as Hij.
    + subst j. rewrite Hr in Hj. by simplify_eq/=.
    + eapply Hrest; eauto.
Qed.

Lemma capacity_inv_submit n c req p :
  capacity_inv n p -> capacity_inv n (submit pick c req p).1.
Proof.
  intros [Hslots Hq]. unfold submit.
  destruct (accepting p); [| done]. simpl.
  destruct (pick (replicas p)) as [i|] eqn:Hpick; simpl.
  - apply (capacity_inv_assign n i req
             (MkPool (replicas p) (processing p) (pending p)
                     (<[id req := c]> (callers p)) true)).
    + exact Hslots.
    + by apply pick_idle.
    + simpl. intros Hpend j r Hj _.
      apply Hq; [done |]. apply list_elem_of_lookup. eauto.
  - split; [exact Hslots |]. simpl. intros _. by apply pick_none.
Qed.

Lemma processing_on_Some i p req :
  processing_on i p = Some req -> (i, req) ∈ processing p.
Proof.
  unfold processing_on. intros H.
  apply fmap_Some in H as ([k [j req']] & Hfind & ->).
  apply list_find_Some in Hfind as (Hk & Hj & _). simpl in *. subst j.
  apply list_elem_of_lookup. eauto.
Qed.

Lemma capacity_inv_complete n i out p :
  capacity_inv n p -> capacity_inv n (complete pick i out p).1.
Proof.
  intros [(Hlen & Hnd & Hbusy) Hq]. unfold complete.
  destruct (processing_on i p) as [req|] eqn:Hon; [| by split; [split |]].
  apply processing_on_Some in Hon. cbn [fst].
  set (p1 := MkPool _ _ _ _ _).
  assert (Hi : exists r, replicas p !! i = Some r /\ busy r = true).
  { apply Hbusy. apply list_elem_of_fmap. by exists (i, req). }
  destruct Hi as (ri & Hri & Hbi).
  assert (Hslots1 : slots_inv n p1).
  { subst p1. unfold slots_inv. simpl. split; [| split].
    - unfold set_busy. by rewrite length_alter.
    - assert (Hf : (filter (fun e : nat * WorkRequest => e.1 ≠ i) (processing p)).*1
                   = filter (fun j => j ≠ i) (processing p).*1).
      { clear. induction (processing p) as [|[j r] l IH]; [done |].
        rewrite fmap_cons. simpl.
        destruct (decide (j ≠ i)).
        - rewrite !filter_cons_True by done. rewrite fmap_cons, IH. done.
        - rewrite !filter_cons_False by done. done. }
      rewrite Hf. by apply NoDup_filter.
    - intros j. rewrite list_elem_of_fmap. setoid_rewrite list_elem_of_filter.
      rewrite set_busy_lookup. case_decide as Hij.
      + subst j. split.
        * intros ([j r] & -> & Hne & _). done.
        * intros (r & Hr & Hb). rewrite Hri in Hr. by simplify_eq/=.
      + rewrite <- Hbusy, list_elem_of_fmap. split.
        * intros (e & -> & _ & He). eauto.
        * intros (e & -> & He). exists e. split; [done |]. split; [| done].
          intros Heq. by rewrite Heq in Hij. }
  assert (Hidle1 : exists r, replicas p1 !! i = Some r /\ busy r = false).
  { subst p1. simpl. rewrite set_busy_lookup, decide_True, Hri by done.
    simpl. eauto. }
  unfold dispatch_next.
  destruct (pending p1) as [|req' rest] eqn:Hpend.
  { split; [done |]. by rewrite Hpend. }
  assert (Hall : forall j r, replicas p1 !! j = Some r -> j ≠ i -> busy r = true).
  { intros j r Hj Hne. subst p1. simpl in *.
    rewrite set_busy_lookup, decide_False in Hj by done.
    apply Hq; [by rewrite Hpend |]. apply list_elem_of_lookup. eauto. }
  destruct (pick (replicas p1)) as [j|] eqn:Hpick.
  - apply pick_idle in Hpick as (r & Hr & Hb).
    assert (j = i) as ->.
    { destruct (decide (j = i)); [done |].
      rewrite (Hall j r Hr) in Hb by done. discriminate. }
    apply capacity_inv_assign.
    + exact Hslots1.
    + simpl. eauto.
    + simpl. intros _ k r' Hk Hne. by eapply Hall.
  - destruct Hidle1 as (r & Hr & Hb).
    rewrite (pick_none _ Hpick r) in Hb; [discriminate |].
    apply list_elem_of_lookup. eauto.
Qed.

Lemma capacity_inv_shutdown n p :
  capacity_inv n p -> capacity_inv n (shutdown p).1.
Proof. intros [Hslots _]. split; [exact Hslots | done]. Qed.

Lemma capacity_inv_step n a p :
  capacity_inv n p -> capacity_inv n (step pick p a).1.
Proof.
  destruct a; simpl.
  - apply capacity_inv_submit.
  - apply capacity_inv_complete.
  - apply capacity_inv_shutdown.
Qed.

Lemma capacity_inv_run n acts p :
  capacity_inv n p -> capacity_inv n (run pick p acts).1.
Proof.
  revert p. induction acts as [|a acts IH]; intros p Hinv; [done |].
  simpl. pose proof (capacity_inv_step n a p Hinv) as Hstep.
  destruct (step pick p a) as [p1 ds1]. simpl in Hstep.
  specialize (IH p1 Hstep). destruct (run pick p1 acts) as [p2 ds2]. exact IH.
Qed.

(** A replica runs one request at a time, so there are no more
    requests in Processing state than replicas. *)
Lemma slots_bound n p : slots_inv n p -> (length (processing p) <= n)%nat.
Proof.
  intros (Hlen & Hnd & Hbusy).
  assert (Hsub : (processing p).*1 ⊆+ seq 0 n).
  { apply NoDup_submseteq; [done |].
    intros i Hi. apply Hbusy in Hi as (r & Hr & _).
    apply lookup_lt_Some in Hr. apply elem_of_seq. lia. }
  apply submseteq_length in Hsub.
  by rewrite length_fmap, length_seq in Hsub.
Qed.

Lemma slots_full n p :
  slots_inv n p -> length (processing p) = n ->
  forall r, r ∈ replicas p -> busy r = true.
Proof.
  intros (Hlen & Hnd & Hbusy) Hfull r Hr.
  apply list_elem_of_lookup in Hr as [i Hi].
  assert (Hperm : (processing p).*1 ≡ₚ seq 0 n).
  { apply submseteq_length_Permutation.
    - apply NoDup_submseteq; [done |].
      intros j Hj. apply Hbusy in Hj as (r' & Hr' & _).
      apply lookup_lt_Some in Hr'. apply elem_of_seq. lia.
    - rewrite length_seq, length_fmap. lia. }
  assert (Hin : i ∈ (processing p).*1).
  { rewrite Hperm. apply elem_of_seq. apply lookup_lt_Some in Hi. lia. }
  apply Hbusy in Hin as (r' & Hr' & Hb). congruence.
Qed.
Lemma slots_not_full n p :
  slots_inv n p -> (length (processing p) < n)%nat ->
  exists r, r ∈ replicas p /\ busy r = false.
Proof.
  intros (Hlen & Hnd & Hbusy) Hlt.
  destruct (list_find (fun r => busy r = false) (replicas p)) as [[j r]|] eqn:Hfind.
  - apply list_find_Some in Hfind as (Hj & Hb & _).
    exists r. split; [| done]. apply list_elem_of_lookup. eauto.
  - exfalso. apply list_find_None in Hfind. rewrite Forall_forall in Hfind.
    assert (Hsub : seq 0 n ⊆+ (processing p).*1).
    { apply NoDup_submseteq; [apply NoDup_seq |].
      intros i Hi. apply elem_of_seq in Hi. apply Hbusy.
      destruct (lookup_lt_is_Some_2 (replicas p) i) as [r Hr]; [lia |].
      exists r. split; [done |].
      assert (Hin : r ∈ replicas p) by (apply list_elem_of_lookup; eauto).
      specialize (Hfind r Hin). by destruct (busy r). }
    apply submseteq_length in Hsub.
    rewrite length_fmap, length_seq in Hsub. lia.
Qed.

(** C1. Whatever is submitted, completed or shut down, and in
    whatever order, a pool of [n] replicas never has more than [n]
    requests in Processing state. While [n] requests are being
    processed a further submission changes nothing in flight and
    goes to the end of the pending queue; while fewer are, it starts
    on an idle replica at once. *)
Theorem pool_never_exceeds_its_size n acts :
  let p := (run pick (init n) acts).1 in
  (length (processing p) <= n)%nat
  /\ (forall c req,
        accepting p = true -> length (processing p) = n ->
        processing (submit pick c req p).1 = processing p
        /\ pending (submit pick c req p).1 = pending p ++ [req])
  /\ (forall c req,
        accepting p = true -> (length (processing p) < n)%nat ->
        exists i, processing (submit pick c req p).1 = processing p ++ [(i, req)]
                  /\ pending (submit pick c req p).1 = pending p).
Proof.
  intros p.
  assert (Hinv : capacity_inv n p) by apply capacity_inv_run, capacity_inv_init.
  destruct Hinv as [Hslots Hq].
  split; [by apply slots_bound |]. split.
  - intros c req Hacc Hfull. unfold submit. rewrite Hacc. simpl.
    destruct (pick (replicas p)) as [i|] eqn:Hpick; [| done].
    apply pick_idle in Hpick as (r & Hr & Hb).
    rewrite (slots_full n p Hslots Hfull r) in Hb; [discriminate |].
    apply list_elem_of_lookup. eauto.
  - intros c req Hacc Hlt. unfold submit. rewrite Hacc. simpl.
    destruct (pick (replicas p)) as [i|] eqn:Hpick.
    + exists i. done.
    + destruct (slots_not_full n p Hslots Hlt) as (r & Hr & Hb).
      rewrite (pick_none _ Hpick r Hr) in Hb. discriminate.
Qed.
(** *** Every request is answered once *)






















End PoolProperties.

Lemma first_idle_idle rs i :
  Pool.first_idle rs = Some i ->
  exists r, rs !! i = Some r /\ Pool.busy r = false.
Proof.
  unfold Pool.first_idle. intros H.
  apply fmap_Some in H as ([j r] & Hfind & ->).
  apply list_find_Some in Hfind as (Hj & Hb & _). eauto.
Qed.

Lemma first_idle_none rs :
  Pool.first_idle rs = None -> forall r, r ∈ rs -> Pool.busy r = true.
Proof.
  unfold Pool.first_idle. intros H r Hr.
  apply fmap_None, list_find_None in H.
  rewrite Forall_forall in H. specialize (H r Hr). by destruct (Pool.busy r).
Qed.

(** The scenario of the specification: five simultaneous requests to
    a pool of two. *)
Lemma pool_never_exceeds_its_size_witness :
  let p := (Pool.run Pool.first_idle (Pool.init 2) five_submissions).1 in
  (length (Pool.processing p) <= 2)%nat
  /\ length (Pool.processing p) = 2%nat
  /\ length (Pool.pending p) = 3%nat.
Proof.
  split; [| split; reflexivity].
  exact (proj1 (pool_never_exceeds_its_size Pool.first_idle
                  first_idle_idle first_idle_none 2 five_submissions)).
Defined.



(** The notebook's own run under [SMOKE_TEST]: the probe, one image
    for the one replica, four ticks from the first submission to the
    last file written. *)
Example notebook_main_smoke_test :
  (notebook_main true transport_stars schedule_fifo uuid_fixed cost_unit display_ok world0).1
    = Ok (4, 1)
  /\ length (sent (notebook_main true transport_stars schedule_fifo uuid_fixed cost_unit
                     display_ok world0).2) = 2%nat.
Proof. split; vm_compute; reflexivity. Qed.

(** ** The rest of the client script *)

Lemma lower_q_iff (s : string) : lower s = "q" <-> s = "q" \/ s = "Q".
Proof.
  split.
  - destruct s as [|c [|c' s']]; simpl; try discriminate.
    intros [= Hc].
    assert (c = "q"%char \/ c = "Q"%char) as [->| ->]; [| by left | by right].
    revert Hc. destruct c as [[] [] [] [] [] [] [] []]; vm_compute;
      intros H; try discriminate H; auto.
  - intros [-> | ->]; reflexivity.
Qed.

Section ScriptProperties.
Variable SMOKE_TEST : bool.
Variable transport : nat -> http_request -> outcome http_response.
Variable schedule : list nat -> nat.
Variable uuid4_hex : nat -> string.
Variable cost : cl_event -> Z.
Variable plt_display : list string -> outcome unit.
Variable NUM_IMAGES_PER_PROMPT : Z.
Variable PROMPT : string.

Local Abbreviation generate_many := (Client.generate_many SMOKE_TEST transport schedule cost).
Local Abbreviation image_request := (Client.image_request SMOKE_TEST).
Local Abbreviation iteration :=
  (Client.iteration SMOKE_TEST transport schedule uuid4_hex cost plt_display NUM_IMAGES_PER_PROMPT).
Local Abbreviation interactive_loop :=
  (Client.interactive_loop SMOKE_TEST transport schedule uuid4_hex cost plt_display
     NUM_IMAGES_PER_PROMPT).
Local Abbreviation main :=
  (Client.main SMOKE_TEST transport schedule uuid4_hex cost plt_display NUM_IMAGES_PER_PROMPT).
Local Abbreviation probe_request := (HttpRequest Client.endpoint [] (Some (1, 10))).
Local Abbreviation after_probe w :=
  (World (trace w) (clock w) (sent w ++ [probe_request]) (objects w) (next_ref w)
         (uuids_drawn w) (dirs w) (files w)).

Lemma iteration_sent prompt gts w :
  sent (iteration prompt gts w).2
  = sent w ++ replicate (Z.to_nat NUM_IMAGES_PER_PROMPT) (image_request prompt).
Proof.
  rewrite iteration_eq. cbv zeta.
  set (w1 := (Client.log cost _ w).2).
  destruct (generate_many_spec SMOKE_TEST transport schedule cost prompt
              (Z.to_nat NUM_IMAGES_PER_PROMPT) w1)
    as (w2 & Hrun & _ & _ & Hsent & _).
  rewrite Hrun. destruct (Client.fetch _ _) as [images|e]; [| exact Hsent].
  case_bool_decide; exact Hsent.
Qed.

Lemma iteration_length prompt gts w gts' w' :
  iteration prompt gts w = (Ok gts', w') -> length gts' = S (length gts).
Proof.
  rewrite iteration_eq. cbv zeta.
  destruct (generate_many _ _ _) as [[images|e] w2]; [| discriminate].
  case_bool_decide; [discriminate |].
  destruct (plt_display _); [| discriminate].
  intros [= <- _]. rewrite length_app. simpl. lia.
Qed.

Lemma interactive_loop_cons line stdin gts w :
  interactive_loop (line :: stdin) gts w =
  let w1 := (Client.log cost (EvInput "Enter a prompt (or 'q' to quit):  ") w).2 in
  if bool_decide (lower line = "q") then (Ok gts, w1)
  else match iteration line gts w1 with
       | (Ok gts1, w2) => interactive_loop stdin gts1 w2
       | (Raised e, w2) => (Raised e, w2)
       end.
Proof.
  cbn [Client.interactive_loop]. unfold bind at 1. unfold Client.log at 1.
  cbv zeta. unfold Client.log. cbn [snd].
  destruct (bool_decide _); [reflexivity |].
  unfold bind. by destruct (iteration _ _ _) as [[gts1|e] w2].
Qed.

Lemma main_eq INTERACTIVE stdin w :
  Client.main SMOKE_TEST transport schedule uuid4_hex cost plt_display NUM_IMAGES_PER_PROMPT
    INTERACTIVE PROMPT stdin w =
  match transport (length (sent w)) probe_request with
  | Raised _ =>
      (Raised (PyError "RuntimeWarning"
                 "Did you setup the Ray Serve model replicas with `python server.py --num-replicas=...` in another terminal yet?"),
       after_probe w)
  | Ok _ =>
      match (if INTERACTIVE then interactive_loop stdin []
             else if bool_decide (lower PROMPT = "q") then ret []
             else iteration PROMPT []) (after_probe w) with
      | (Ok [], w') => (Ok (-1, 1), w')
      | (Ok (t :: ts), w') => (Ok (mean (t :: ts)), w')
      | (Raised e, w') => (Raised e, w')
      end
  end.
Proof.
  unfold Client.main, Client.probe, Client.requests_get, bind.
  destruct (transport _ _); [| reflexivity].
  cbn [fst snd].
  match goal with
  | |- context [(if INTERACTIVE then ?a else ?b) ?w1] =>
      destruct ((if INTERACTIVE then a else b) w1) as [[[|t ts]|e] w']
  end; reflexivity.
Qed.


Lemma interactive_loop_quits stdin gts w gts' w' :
  interactive_loop stdin gts w = (Ok gts', w') ->
  exists line, line ∈ stdin /\ lower line = "q".
Proof.
  revert gts w. induction stdin as [|line stdin IH]; intros gts w.
  - discriminate.
  - rewrite interactive_loop_cons. cbv zeta.
    case_bool_decide as Hq.
    + intros _. exists line. split; [by left | done].
    + destruct (iteration _ _ _) as [[gts1|e] w2]; [| discriminate].
      intros Hrest. destruct (IH _ _ Hrest) as (l & Hl & Hlq).
      exists l. split; [by right | done].
Qed.

(** X3. In interactive mode [main] returns a mean only if a line of
    the input is [q] or [Q]. When the input ends without one, [main]
    does not return: the times of the passes made so far are lost. *)
Theorem interactive_main_returns_only_after_quit stdin w r w' :
  main true PROMPT stdin w = (Ok r, w') ->
  exists line, line ∈ stdin /\ (line = "q" \/ line = "Q").
Proof.
  rewrite main_eq. destruct (transport _ _); [| discriminate].
  destruct (interactive_loop _ _ _) as [[gts|e] w1] eqn:Hloop.
  - intros _. destruct (interactive_loop_quits _ _ _ _ _ Hloop) as (l & Hl & Hq).
    exists l. split; [done |]. by apply lower_q_iff.
  - discriminate.
Qed.

Lemma interactive_loop_after_quit pre line post gts w :
  lower line = "q" ->
  interactive_loop (pre ++ line :: post) gts w
  = interactive_loop (pre ++ [line]) gts w.
Proof.
  intros Hq. revert gts w. induction pre as [|l pre IH]; intros gts w.
  - cbn [app]. rewrite !interactive_loop_cons. cbv zeta.
    by rewrite !bool_decide_eq_true_2.
  - cbn [app]. rewrite !interactive_loop_cons. cbv zeta.
    case_bool_decide; [done |].
    destruct (iteration _ _ _) as [[gts1|e] w2]; [apply IH | done].
Qed.

(** X4. In interactive mode nothing that follows the first [q] or
    [Q] in the input has any effect on [main]: neither on what it
    returns nor on the world it leaves. *)
Theorem interactive_main_ignores_input_after_quit pre line post w :
  line = "q" \/ line = "Q" ->
  main true PROMPT (pre ++ line :: post) w = main true PROMPT (pre ++ [line]) w.
Proof.
  intros Hq. apply lower_q_iff in Hq. rewrite !main_eq.
  destruct (transport _ _); [| done].
  by rewrite interactive_loop_after_quit.
Qed.

Lemma interactive_loop_counts stdin gts w gts' w' :
  interactive_loop stdin gts w = (Ok gts', w') ->
  length gts' = (length gts + length (prompts_before_quit stdin))%nat
  /\ sent w' = sent w ++ concat (map (fun p => replicate (Z.to_nat NUM_IMAGES_PER_PROMPT)
                                                 (image_request p))
                                     (prompts_before_quit stdin)).
Proof.
  revert gts w. induction stdin as [|line stdin IH]; intros gts w.
  - discriminate.
  - rewrite interactive_loop_cons. cbv zeta. cbn [prompts_before_quit].
    case_bool_decide as Hq.
    + intros [= <- <-]. simpl. rewrite app_nil_r. split; [lia | done].
    + pose proof (iteration_sent line gts (Client.log cost
                    (EvInput "Enter a prompt (or 'q' to quit):  ") w).2) as Hsent.
      destruct (iteration _ _ _) as [[gts1|e] w2] eqn:Hit; [| discriminate].
      apply iteration_length in Hit. intros Hrest.
      destruct (IH _ _ Hrest) as [Hlen Hs].
      split; [simpl; lia |].
      rewrite Hs. cbn [snd] in Hsent. rewrite Hsent. simpl.
      by rewrite <- app_assoc.
Qed.

(** X5. When [main] returns in interactive mode, it has made one pass
    for each line before the first [q] or [Q] and none after: the
    mean it returns is over that many times (and is -1 when there
    was no such line), and the requests it has made are the one of
    the start followed by [NUM_IMAGES_PER_PROMPT] requests for each
    of those lines, in the order of the lines. *)
Theorem interactive_main_one_pass_per_prompt stdin w r w' :
  main true PROMPT stdin w = (Ok r, w') ->
  let prompts := prompts_before_quit stdin in
  (prompts = [] -> r = (-1, 1))
  /\ (prompts ≠ [] -> r.2 = Z.of_nat (length prompts))
  /\ sent w' = sent w ++ probe_request
                 :: concat (map (fun p => replicate (Z.to_nat NUM_IMAGES_PER_PROMPT)
                                            (image_request p)) prompts).
Proof.
  rewrite main_eq. destruct (transport _ _); [| discriminate].
  destruct (interactive_loop _ _ _) as [[gts|e] w1] eqn:Hloop; [| discriminate].
  apply interactive_loop_counts in Hloop as [Hlen Hsent]. simpl in Hlen, Hsent.
  intros Hr prompts. fold prompts in Hlen, Hsent.
  assert (Hw : w1 = w') by (destruct gts; by injection Hr).
  subst w1. split; [| split].
  - intros Hnil. rewrite Hnil in Hlen. destruct gts; [| discriminate].
    by injection Hr.
  - intros Hne. destruct gts as [|t ts].
    + destruct prompts; [done | discriminate].
    + injection Hr as <-. unfold mean. simpl. rewrite <- Hlen. simpl. lia.
  - rewrite Hsent, <- app_assoc. done.
Qed.

(** X6. When not interactive, [main] never reads the input. If it
    returns, then either [PROMPT] is [q] or [Q], no pass was made,
    the result is -1 and the only request made is the one of the
    start; or exactly one pass was made, the mean is over one time,
    and [NUM_IMAGES_PER_PROMPT] requests for [PROMPT] follow the one
    of the start. *)
Theorem batch_main_makes_one_pass stdin w r w' :
  main false PROMPT stdin w = main false PROMPT [] w
  /\ (main false PROMPT stdin w = (Ok r, w') ->
        (PROMPT = "q" \/ PROMPT = "Q" ->
           r = (-1, 1) /\ sent w' = sent w ++ [probe_request])
        /\ (~ (PROMPT = "q" \/ PROMPT = "Q") ->
             r.2 = 1
             /\ sent w' = sent w ++ probe_request
                   :: replicate (Z.to_nat NUM_IMAGES_PER_PROMPT)
                        (image_request PROMPT))).
Proof.
  split; [by rewrite !main_eq |].
  rewrite main_eq. destruct (transport _ _); [| discriminate].
  rewrite <- lower_q_iff. case_bool_decide as Hq.
  - unfold ret. intros [= <- <-]. split; [done |]. by intros [].
  - pose proof (iteration_sent PROMPT [] (after_probe w)) as Hsent.
    destruct (iteration _ _ _) as [[gts|e] w1] eqn:Hit; [| discriminate].
    apply iteration_length in Hit. simpl in Hit, Hsent.
    destruct gts as [|t [|t' ts]]; try discriminate.
    intros [= <- <-]. split; [done |]. intros _. split; [done |].
    rewrite Hsent, <- app_assoc. done.
Qed.
End ScriptProperties.

(** *** File names *)








Section FilesAndFailures.
Variable SMOKE_TEST : bool.
Variable transport : nat -> http_request -> outcome http_response.
Variable schedule : list nat -> nat.
Variable uuid4_hex : nat -> string.
Variable cost : cl_event -> Z.
Variable plt_display : list string -> outcome unit.
Variable NUM_IMAGES_PER_PROMPT : Z.

Local Abbreviation generate_many := (Client.generate_many SMOKE_TEST transport schedule cost).
Local Abbreviation image_request := (Client.image_request SMOKE_TEST).
Local Abbreviation iteration :=
  (Client.iteration SMOKE_TEST transport schedule uuid4_hex cost plt_display NUM_IMAGES_PER_PROMPT).


Lemma total_cost_nonneg evs :
  (forall ev, 0 <= cost ev) -> 0 <= Client.total_cost cost evs.
Proof.
  intros Hcost. induction evs as [|ev evs IH]; [done |].
  unfold Client.total_cost in *. cbn [foldr]. specialize (Hcost ev). lia.
Qed.

(** X11. When no step of the driver takes negative time, the time
    recorded for a pass that completes is never less than the time
    from the issuance of its requests to the retrieval of the last
    result. *)
Theorem recorded_time_covers_retrieval prompt gts w gts' w' :
  (forall ev, 0 <= cost ev) ->
  iteration prompt gts w = (Ok gts', w') ->
  exists elapsed,
    gts' = gts ++ [elapsed]
    /\ Client.retrieval_interval SMOKE_TEST transport schedule cost NUM_IMAGES_PER_PROMPT
         prompt w <= elapsed.
Proof.
  intros Hcost. rewrite iteration_eq. unfold Client.retrieval_interval. cbv zeta.
  destruct (generate_many _ _ _) as [[images|e] w2]; [| discriminate].
  case_bool_decide; [discriminate |].
  destruct (plt_display _); [| discriminate].
  intros [= <- _]. eexists. split; [reflexivity |].
  cbn [Client.log snd clock].
  pose proof (total_cost_nonneg
                (Client.write_events
                   (String.substring 0 8 (uuid4_hex (uuids_drawn w2))) 0 images)
                Hcost) as Hw.
  specialize (Hcost (EvMakedirs (String.substring 0 8 (uuid4_hex (uuids_drawn w2))))).
  lia.
Qed.
End FilesAndFailures.

(** ** The rest of the deployment *)

(** X10. For a non-empty prompt and a pipeline that returns at least
    one image, the call to [/imagine] succeeds: the handle is called
    once, the pipeline is run once, and the response carries the PNG
    encoding of the first image. Whatever images follow the first
    have no effect on the response. *)
Theorem endpoint_answers_with_first_image pipe png_encode prompt img_size s im rest :
  prompt ≠ EmptyString ->
  pipe prompt (default 776 img_size) (default 776 img_size) = Ok (im :: rest) ->
  entrypoint pipe png_encode prompt img_size s
  = (Ok (MkResponse (png_encode im) "image/png" 200),
     s ++ [EvRemote prompt (default 776 img_size);
           EvPipe prompt (default 776 img_size) (default 776 img_size)]).
Proof.
  intros Hne Hpipe. unfold entrypoint.
  rewrite ingress_generate_nonempty by done.
  rewrite replica_generate_nonempty by done. simpl.
  by rewrite Hpipe, <- app_assoc.
Qed.

(** ** The added properties at concrete inputs *)



Lemma interactive_main_returns_only_after_quit_witness :
  exists line, line ∈ ["a dog"; "Q"; "a cat"] /\ (line = "q" \/ line = "Q").
Proof.
  destruct (Client.main false transport_stars schedule_fifo uuid_fixed cost_unit display_ok 1 true
              "a cat" ["a dog"; "Q"; "a cat"] world0) as [[r|e] w'] eqn:Hmain.
  - exact (interactive_main_returns_only_after_quit false transport_stars schedule_fifo uuid_fixed
             cost_unit display_ok 1 "a cat" _ world0 r w' Hmain).
  - vm_compute in Hmain. discriminate Hmain.
Defined.

Lemma interactive_main_ignores_input_after_quit_witness :
  Client.main false transport_stars schedule_fifo uuid_fixed cost_unit display_ok 1 true
    "a cat" (["a dog"] ++ "q" :: ["a cat"; "a bird"]) world0
  = Client.main false transport_stars schedule_fifo uuid_fixed cost_unit display_ok 1 true
      "a cat" (["a dog"] ++ ["q"]) world0.
Proof.
  apply (interactive_main_ignores_input_after_quit false transport_stars schedule_fifo uuid_fixed
           cost_unit display_ok 1 "a cat" ["a dog"] "q" ["a cat"; "a bird"] world0).
  by left.
Defined.

Lemma interactive_main_one_pass_per_prompt_witness :
  exists r w',
    Client.main false transport_stars schedule_fifo uuid_fixed cost_unit display_ok 2 true
      "a cat" ["a dog"; "Q"; "a cat"] world0 = (Ok r, w')
    /\ r.2 = 1
    /\ length (sent w') = 3%nat.
Proof.
  destruct (Client.main false transport_stars schedule_fifo uuid_fixed cost_unit display_ok 2 true
              "a cat" ["a dog"; "Q"; "a cat"] world0) as [[r|e] w'] eqn:Hmain.
  - exists r, w'. split; [reflexivity |].
    destruct (interactive_main_one_pass_per_prompt false transport_stars schedule_fifo uuid_fixed
                cost_unit display_ok 2 "a cat" _ world0 r w' Hmain)
      as (_ & Hden & Hsent).
    split; [by apply Hden | by rewrite Hsent].
  - vm_compute in Hmain. discriminate Hmain.
Defined.

Lemma batch_main_makes_one_pass_witness :
  exists r w',
    Client.main false transport_stars schedule_fifo uuid_fixed cost_unit display_ok 4 false
      "a cat" ["ignored"] world0 = (Ok r, w')
    /\ r.2 = 1
    /\ length (sent w') = 5%nat.
Proof.
  destruct (Client.main false transport_stars schedule_fifo uuid_fixed cost_unit display_ok 4 false
              "a cat" ["ignored"] world0) as [[r|e] w'] eqn:Hmain.
  - exists r, w'. split; [reflexivity |].
    destruct (batch_main_makes_one_pass false transport_stars schedule_fifo uuid_fixed
                cost_unit display_ok 4 "a cat" ["ignored"] world0 r w')
      as (_ & Hres).
    destruct (Hres Hmain) as (_ & Hone).
    destruct Hone as (Hden & Hsent); [by intros [|] |].
    split; [done | by rewrite Hsent].
  - vm_compute in Hmain. discriminate Hmain.
Defined.



Lemma endpoint_answers_with_first_image_witness :
  entrypoint pipe_pair png_signature "a cat" (Some 64) []
  = (Ok (MkResponse (png_signature (Image 64 64 [])) "image/png" 200),
     [EvRemote "a cat" 64; EvPipe "a cat" 64 64]).
Proof.
  apply (endpoint_answers_with_first_image pipe_pair png_signature "a cat" (Some 64) []
           (Image 64 64 []) [Image 1 1 [Byte.x00]]); [discriminate | reflexivity].
Defined.

Lemma recorded_time_covers_retrieval_witness :
  exists elapsed,
    (Client.iteration false transport_stars schedule_fifo uuid_fixed cost_unit display_ok 1
       "p" [] world0).1 = Ok [elapsed]
    /\ Client.retrieval_interval false transport_stars schedule_fifo cost_unit 1 "p" world0 <= elapsed.
Proof.
  destruct (Client.iteration false transport_stars schedule_fifo uuid_fixed cost_unit display_ok 1
              "p" [] world0) as [[gts'|e] w'] eqn:Hit.
  - destruct (recorded_time_covers_retrieval false transport_stars schedule_fifo uuid_fixed
                cost_unit display_ok 1 "p" [] world0 gts' w')
      as (elapsed & -> & Hle); [by intros ev | exact Hit |].
    exists elapsed. split; [reflexivity | exact Hle].
  - vm_compute in Hit. discriminate Hit.
Defined.
